(** * Dirac measures and product measures (mystic, [_math/dirac_measure.py])

    A shallow embedding of the [point], [dirac_measure] and [product_measure]
    classes and of the transforms [compose], [decompose], [flatten] and
    [unflatten], followed by the properties proved of them.

    Conventions of the embedding.
    - Positions and weights are binary64 floats ([PrimFloat.float]); a
      coordinate tuple is a list of floats.
    - A Python list is a Rocq list.  Indexing [l[i]] with [i] taken from a
      [range] is [index l i], which raises [IndexError] past the end.
    - A call that may raise returns a [result]; a setter, which mutates its
      measure in place, returns the measure as the call leaves it together
      with the outcome, so that what an interrupted loop has already written
      stays visible.
    - Every point belongs to exactly one slot of one measure (the ownership
      discipline of the data model), so a measure is the list of its points
      and updating slot [i] touches that slot only. *)

From Stdlib Require Import List Arith Lia Bool Permutation.
From Stdlib Require Import Floats.PrimFloat.
Import ListNotations.

(** ** Exceptions and results *)

Inductive exn : Type := IndexError.

Inductive result (A : Type) : Type :=
| Ok (a : A)
| Raise (e : exn).

Arguments Ok {A} a.
Arguments Raise {A} e.

Definition bind {A B : Type} (m : result A) (k : A -> result B) : result B :=
  match m with
  | Ok a => k a
  | Raise e => Raise e
  end.

Notation "x <- m ;; k" := (bind m (fun x => k))
  (at level 61, m at next level, right associativity).

(** [l[i]] for a non-negative [i]. *)
Definition index {A : Type} (l : list A) (i : nat) : result A :=
  match nth_error l i with
  | Some a => Ok a
  | None => Raise IndexError
  end.

(** [[body(i) for i in idx]], stopping at the first exception. *)
Fixpoint for_list {A B : Type} (body : A -> result B) (idx : list A)
  : result (list B) :=
  match idx with
  | [] => Ok []
  | i :: rest =>
      b <- body i ;;
      bs <- for_list body rest ;;
      Ok (b :: bs)
  end.

(** [for i in idx: acc = body(acc, i)], stopping at the first exception. *)
Fixpoint for_acc {A St : Type} (body : St -> A -> result St) (idx : list A)
  (acc : St) : result St :=
  match idx with
  | [] => Ok acc
  | i :: rest =>
      acc' <- body acc i ;;
      for_acc body rest acc'
  end.

(** [range(n)]. *)
Definition range (n : nat) : list nat := seq 0 n.

(** ** Python numbers met by the accumulations

    [pof] and [sum] start from the [int] literal [0] and add floats to it:
    the value they hold is that [int] zero until the first addition and a
    float afterwards. *)

Inductive pynum : Type :=
| PyInt0
| PyFloat (x : float).

(** [u + w] for a float [w]: an [int] operand is converted first. *)
Definition py_add (u : pynum) (w : float) : pynum :=
  match u with
  | PyInt0 => PyFloat (0 + w)
  | PyFloat x => PyFloat (x + w)
  end.

(** The builtin [sum(l)]. *)
Definition py_sum (l : list float) : pynum := fold_left py_add l PyInt0.

(** [u == v] between numbers. *)
Definition py_eq (u v : pynum) : bool :=
  match u, v with
  | PyInt0, PyInt0 => true
  | PyInt0, PyFloat y => (0 =? y)%float
  | PyFloat x, PyInt0 => (x =? 0)%float
  | PyFloat x, PyFloat y => (x =? y)%float
  end.

(** ** class point *)

Module point.

(** [point(position, weight)]. *)
Record t : Type := mk { position : float; weight : float }.

(** The point after [p.position = x]. *)
Definition set_position (p : t) (x : float) : t := mk x (weight p).

(** The point after [p.weight = w]. *)
Definition set_weight (p : t) (w : float) : t := mk (position p) w.

End point.

(** [self[i] = v] on the list that stands for the store of a measure. *)
Fixpoint store {A : Type} (l : list A) (i : nat) (v : A) : list A :=
  match l, i with
  | [], _ => []
  | _ :: l', O => v :: l'
  | a :: l', S i' => a :: store l' i' v
  end.

(** ** class dirac_measure(list) *)

Module dirac_measure.

Definition t : Type := list point.t.

Definition __weights (self : t) : list float := map point.weight self.

Definition __positions (self : t) : list float := map point.position self.

Definition __n (self : t) : nat := length self.

Definition __mass (self : t) : pynum := py_sum (__weights self).

(** One turn of the loop of [__set_weights]:
    [self[i].weight = weights[i]]. *)
Definition set_weight_at (weights : list float) (self : t) (i : nat)
  : t * result unit :=
  match index weights i with
  | Raise e => (self, Raise e)
  | Ok w =>
      match index self i with
      | Raise e => (self, Raise e)
      | Ok p => (store self i (point.set_weight p w), Ok tt)
      end
  end.

(** One turn of the loop of [__set_positions]:
    [self[i].position = positions[i]]. *)
Definition set_position_at (positions : list float) (self : t) (i : nat)
  : t * result unit :=
  match index positions i with
  | Raise e => (self, Raise e)
  | Ok x =>
      match index self i with
      | Raise e => (self, Raise e)
      | Ok p => (store self i (point.set_position p x), Ok tt)
      end
  end.

(** [for i in idx: step(self, i)] on a measure mutated in place: the
    measure reached when the loop ends or raises, and the outcome. *)
Fixpoint mutate (step : t -> nat -> t * result unit) (idx : list nat)
  (self : t) : t * result unit :=
  match idx with
  | [] => (self, Ok tt)
  | i :: rest =>
      match step self i with
      | (self', Ok _) => mutate step rest self'
      | (self', Raise e) => (self', Raise e)
      end
  end.

Definition __set_weights (self : t) (weights : list float)
  : t * result unit :=
  mutate (set_weight_at weights) (range (length weights)) self.

Definition __set_positions (self : t) (positions : list float)
  : t * result unit :=
  mutate (set_position_at positions) (range (length positions)) self.

(** The properties [weights], [coords], [npts], [mass]. *)
Definition weights := __weights.
Definition coords := __positions.
Definition npts := __n.
Definition mass := __mass.

(** The range and mean setters delegate to [impose_spread] and
    [impose_mean] of [mystic.math.measures]: routines outside this file
    that take the target value, the current positions and the current
    weights and return new positions, or fail with an exception that
    reaches the caller before anything is written. *)
Section External.

Variable impose_spread : float -> list float -> list float
                         -> result (list float).
Variable impose_mean : float -> list float -> list float
                       -> result (list float).

Definition __set_range (self : t) (r : float) : t * result unit :=
  match impose_spread r (coords self) (weights self) with
  | Raise e => (self, Raise e)
  | Ok positions => __set_positions self positions
  end.

Definition __set_mean (self : t) (m : float) : t * result unit :=
  match impose_mean m (coords self) (weights self) with
  | Raise e => (self, Raise e)
  | Ok positions => __set_positions self positions
  end.

End External.

(** [normalize] delegates to [impose_weight_norm] of
    [mystic.math.measures], a routine outside this file that takes the
    current positions and weights and returns a pair (positions, weights),
    or fails.  The pair is assigned target by target, [self.coords] first
    and [self.weights] second, so a position setter that raises keeps the
    weight setter from running. *)
Section Normalize.

Variable impose_weight_norm : list float -> list float
                              -> result (list float * list float).

Definition normalize (self : t) : t * result unit :=
  match impose_weight_norm (coords self) (weights self) with
  | Raise e => (self, Raise e)
  | Ok (positions, weights) =>
      match __set_positions self positions with
      | (self', Raise e) => (self', Raise e)
      | (self', Ok _) => __set_weights self' weights
      end
  end.

End Normalize.

End dirac_measure.


(** ** Helpers of [mystic.math.measures] *)

(** Modelled from the spec: [_pack] lives in [mystic.math.measures], outside
    this file.  It groups per-dimension sequences into the Cartesian-product
    enumeration order of the joint grid: one tuple per grid point, holding
    one entry of each dimension, and the same order for whatever sequences
    it is given, so that the joint weights and the joint positions pair up.
    The spec does not say which dimension varies fastest; here it is the
    first one, and on the example of the spec (a dimension of two points
    and a dimension of one point) either choice gives the same grid. *)
Fixpoint _pack {A : Type} (samples : list (list A)) : list (list A) :=
  match samples with
  | [] => [[]]
  | pool :: rest =>
      flat_map (fun tail => map (fun y => y :: tail) pool) (_pack rest)
  end.

(** Modelled from the spec: [_nested_split] lives in [mystic.math.measures],
    outside this file.  It splits a flat parameter sequence into nested
    per-dimension weight and position sequences, with each dimension's point
    count as the split boundary: for every count [n] in turn, the next [n]
    parameters are that dimension's weights and the [n] after them its
    positions.  It returns the pair (weights, positions). *)
Fixpoint _nested_split {A : Type} (params : list A) (npts : list nat)
  : list (list A) * list (list A) :=
  match npts with
  | [] => ([], [])
  | n :: rest =>
      let w := firstn n params in
      let params := skipn n params in
      let x := firstn n params in
      let params := skipn n params in
      let (weights, coords) := _nested_split params rest in
      (w :: weights, x :: coords)
  end.

(** ** class product_measure(list) *)

Module product_measure.

Definition t : Type := list dirac_measure.t.

Definition __n (self : t) : nat :=
  fold_left (fun npts i => npts * dirac_measure.npts i) self 1.

Definition __weights (self : t) : list float :=
  let weights := map dirac_measure.weights self in
  let weights := _pack weights in
  map (fun wts => fold_left (fun weight w => weight * w)%float wts 1%float)
      weights.

Definition __positions (self : t) : list (list float) :=
  let coords := map dirac_measure.coords self in
  _pack coords.

Definition __mass (self : t) : result (list pynum) :=
  for_list (fun i => d <- index self i ;; Ok (dirac_measure.mass d))
           (range (length self)).

(** The properties [npts], [weights], [coords], [mass]. *)
Definition npts := __n.
Definition weights := __weights.
Definition coords := __positions.
Definition mass := __mass.

(** [pof(f)]: [f] maps a coordinate tuple to a number, compared with [0.0]. *)
Definition pof (self : t) (f : list float -> float) : result pynum :=
  for_acc
    (fun u i =>
       x <- index (coords self) i ;;
       if (f x <=? 0)%float
       then w <- index (weights self) i ;; Ok (py_add u w)
       else Ok u)
    (range (npts self)) PyInt0.

End product_measure.

(** ** Creators and destructors from a parameter list *)

Definition compose (samples weights : list (list float))
  : result product_measure.t :=
  for_list
    (fun i =>
       si <- index samples i ;;
       for_list
         (fun j =>
            sij <- (si' <- index samples i ;; index si' j) ;;
            wij <- (wi <- index weights i ;; index wi j) ;;
            Ok (point.mk sij wij))
         (range (length si)))
    (range (length samples)).

Definition flatten (c : product_measure.t) : result (list float) :=
  rv <- for_acc
          (fun rv i =>
             ci <- index c i ;;
             let rv := rv ++ [dirac_measure.weights ci] in
             ci <- index c i ;;
             let rv := rv ++ [dirac_measure.coords ci] in
             Ok rv)
          (range (length c)) [] ;;
  Ok (concat rv).

Definition decompose (c : product_measure.t)
  : result (list (list float) * list (list float)) :=
  let npts := map dirac_measure.npts c in
  params <- flatten c ;;
  let (w, x) := _nested_split params npts in
  Ok (x, w).

Definition unflatten (params : list float) (npts : list nat)
  : result product_measure.t :=
  let (w, x) := _nested_split params npts in
  compose x w.


(** ** Vocabulary of the statements *)

(** [product(l)] of a list of counts. *)
Definition product (l : list nat) : nat := fold_right Nat.mul 1 l.

(** What an element-wise assignment writes when it runs to the shorter of
    the two sequences: slot [i] receives [q[i]] through [set], slots past
    the end of [q] keep their point. *)
Fixpoint overwrite (set : point.t -> float -> point.t)
  (self : dirac_measure.t) (q : list float) : dirac_measure.t :=
  match self, q with
  | p :: self', x :: q' => set p x :: overwrite set self' q'
  | _, _ => self
  end.

(** The points built from parallel positions and weights. *)
Definition zip_points (xs ws : list float) : dirac_measure.t :=
  map (fun xw => point.mk (fst xw) (snd xw)) (combine xs ws).

(** One measure per dimension, from nested positions and weights. *)
Definition zip_measures (samples weights : list (list float))
  : product_measure.t :=
  map (fun sw => zip_points (fst sw) (snd sw)) (combine samples weights).

(** The grid indices at which [f] reports a failure. *)
Definition failures (c : product_measure.t) (f : list float -> float)
  : list nat :=
  filter (fun i => (f (nth i (product_measure.coords c) []) <=? 0)%float)
         (range (product_measure.npts c)).

(** Measures used as concrete inputs. *)
Definition dimA : dirac_measure.t := [point.mk 0 0.5; point.mk 1 0.5].
Definition dimB : dirac_measure.t := [point.mk 2 1].

(** A routine of the external kind, used as a concrete input: it moves
    every position by the target value. *)
Definition shift_by (target : float) (positions weights : list float)
  : result (list float) :=
  Ok (map (fun x => (x + target)%float) positions).

(** [s.a = q1; s.b = q2]: two setter calls in a row, the second one run only
    if the first one returns. *)
Definition and_then (first : dirac_measure.t * result unit)
  (second : dirac_measure.t -> dirac_measure.t * result unit)
  : dirac_measure.t * result unit :=
  match first with
  | (self', Ok _) => second self'
  | (self', Raise e) => (self', Raise e)
  end.

(** A weight-norm routine of the external kind, used as a concrete input:
    it keeps the positions and halves every weight. *)
Definition halve_weights (positions weights : list float)
  : result (list float * list float) :=
  Ok (positions, map (fun w => (w / 2)%float) weights).

(** A weight-norm routine of the external kind, used as a concrete input:
    it moves every position by one, halves every weight and returns one
    position too many. *)
Definition one_position_more (positions weights : list float)
  : result (list float * list float) :=
  Ok (map (fun x => (x + 1)%float) positions ++ [0%float],
      map (fun w => (w / 2)%float) weights).

(** * Properties *)

(** ** Loops over an index range *)

Lemma index_app_r {A : Type} (pre l : list A) (i : nat) :
  index (pre ++ l) (length pre + i) = index l i.
Proof.
  unfold index. rewrite nth_error_app2 by lia.
  replace (length pre + i - length pre) with i by lia. reflexivity.
Qed.

Lemma index_Some {A : Type} (l : list A) (i : nat) (a : A) :
  nth_error l i = Some a -> index l i = Ok a.
Proof. unfold index. intros ->. reflexivity. Qed.

Lemma for_list_pure {A B : Type} (h : A -> B) (l : list A) :
  for_list (fun a => Ok (h a)) l = Ok (map h l).
Proof.
  induction l as [|a l IH]; simpl; [reflexivity|].
  rewrite IH. reflexivity.
Qed.

(** A comprehension over [range(len(l))] that reads [l[i]] is a
    comprehension over the elements of [l]. *)
Lemma for_list_range {A B : Type} (body : nat -> result B)
  (g : A -> result B) (l : list A) (k : nat) :
  (forall i a, nth_error l i = Some a -> body (k + i) = g a) ->
  for_list body (seq k (length l)) = for_list g l.
Proof.
  revert k. induction l as [|a l IH]; intros k H; simpl; [reflexivity|].
  rewrite <- (H 0 a eq_refl), Nat.add_0_r.
  rewrite (IH (S k)); [reflexivity|].
  intros i b Hi. rewrite <- (H (S i) b Hi). f_equal. lia.
Qed.

Lemma for_acc_pure {A St : Type} (h : St -> A -> St) (l : list A) (acc : St) :
  for_acc (fun s a => Ok (h s a)) l acc = Ok (fold_left h l acc).
Proof.
  revert acc. induction l as [|a l IH]; intros acc; simpl; [reflexivity|].
  apply IH.
Qed.

Lemma for_acc_range {A St : Type} (body : St -> nat -> result St)
  (g : St -> A -> result St) (l : list A) (k : nat) (acc : St) :
  (forall s i a, nth_error l i = Some a -> body s (k + i) = g s a) ->
  for_acc body (seq k (length l)) acc = for_acc g l acc.
Proof.
  revert k acc. induction l as [|a l IH]; intros k acc H; simpl;
    [reflexivity|].
  rewrite <- (H acc 0 a eq_refl), Nat.add_0_r.
  destruct (body acc k) as [acc'|e]; simpl; [|reflexivity].
  apply IH. intros s i b Hi. rewrite <- (H s (S i) b Hi). f_equal. lia.
Qed.

(** ** Lists cut at a known length *)

Lemma firstn_exact {A : Type} (a b : list A) (n : nat) :
  length a = n -> firstn n (a ++ b) = a.
Proof.
  intros <-. rewrite firstn_app, Nat.sub_diag, firstn_all. simpl.
  apply app_nil_r.
Qed.

Lemma skipn_exact {A : Type} (a b : list A) (n : nat) :
  length a = n -> skipn n (a ++ b) = b.
Proof.
  intros <-. rewrite skipn_app, Nat.sub_diag, skipn_all. reflexivity.
Qed.

Lemma nth_error_combine {A B : Type} (a : list A) (b : list B) (i : nat)
  (x : A) (y : B) :
  nth_error (combine a b) i = Some (x, y) ->
  nth_error a i = Some x /\ nth_error b i = Some y.
Proof.
  revert b i. induction a as [|a0 a IH]; intros [|b0 b] [|i]; simpl;
    try discriminate.
  - intros H. injection H as -> ->. split; reflexivity.
  - apply IH.
Qed.

Lemma Forall2_combine {A B : Type} (P : A -> B -> Prop) (a : list A)
  (b : list B) :
  Forall2 P a b -> forall p, In p (combine a b) -> P (fst p) (snd p).
Proof.
  induction 1 as [|x y a b Hxy _ IH]; simpl; [contradiction|].
  intros p [<-|Hp]; [exact Hxy | exact (IH p Hp)].
Qed.

Lemma Forall2_length_eq {A B : Type} (P : A -> B -> Prop) (a : list A)
  (b : list B) :
  Forall2 P a b -> length a = length b.
Proof. induction 1; simpl; congruence. Qed.

(** ** Points zipped from parallel sequences *)

Lemma zip_points_coords (xs ws : list float) :
  length xs = length ws -> dirac_measure.coords (zip_points xs ws) = xs.
Proof.
  unfold dirac_measure.coords, dirac_measure.__positions, zip_points.
  revert ws. induction xs as [|x xs IH]; intros [|w ws]; simpl;
    try discriminate; [reflexivity|].
  intros H. f_equal. apply IH. congruence.
Qed.

Lemma zip_points_weights (xs ws : list float) :
  length xs = length ws -> dirac_measure.weights (zip_points xs ws) = ws.
Proof.
  unfold dirac_measure.weights, dirac_measure.__weights, zip_points.
  revert ws. induction xs as [|x xs IH]; intros [|w ws]; simpl;
    try discriminate; [reflexivity|].
  intros H. f_equal. apply IH. congruence.
Qed.

Lemma zip_points_self (d : dirac_measure.t) :
  zip_points (dirac_measure.coords d) (dirac_measure.weights d) = d.
Proof.
  unfold zip_points, dirac_measure.coords, dirac_measure.weights,
    dirac_measure.__positions, dirac_measure.__weights.
  induction d as [|[x w] d IH]; simpl; [reflexivity|].
  f_equal. exact IH.
Qed.

Lemma zip_measures_self (c : product_measure.t) :
  zip_measures (map dirac_measure.coords c) (map dirac_measure.weights c) = c.
Proof.
  unfold zip_measures.
  induction c as [|d c IH]; simpl; [reflexivity|].
  rewrite zip_points_self. f_equal. exact IH.
Qed.

Lemma zip_measures_coords (samples weights : list (list float)) :
  Forall2 (fun s w => length s = length w) samples weights ->
  map dirac_measure.coords (zip_measures samples weights) = samples.
Proof.
  unfold zip_measures.
  induction 1 as [|s w samples weights Hsw _ IH]; simpl; [reflexivity|].
  rewrite zip_points_coords by exact Hsw. f_equal. exact IH.
Qed.

Lemma zip_measures_weights (samples weights : list (list float)) :
  Forall2 (fun s w => length s = length w) samples weights ->
  map dirac_measure.weights (zip_measures samples weights) = weights.
Proof.
  unfold zip_measures.
  induction 1 as [|s w samples weights Hsw _ IH]; simpl; [reflexivity|].
  rewrite zip_points_weights by exact Hsw. f_equal. exact IH.
Qed.

(** ** [compose] on well-shaped input *)

Lemma index_at_length {A : Type} (pre l : list A) (k : nat) :
  length pre = k -> index (pre ++ l) k = index l 0.
Proof. intros <-. rewrite <- (index_app_r pre l 0). f_equal. lia. Qed.

Lemma zip_loop (s : list float) :
  forall (spre wpre w : list float) (k : nat),
  length spre = k -> length wpre = k ->
  for_list
    (fun j =>
       sij <- index (spre ++ s) j ;;
       wij <- index (wpre ++ w) j ;;
       Ok (point.mk sij wij))
    (seq k (length s))
  = (if length s <=? length w then Ok (zip_points s w)
     else Raise IndexError).
Proof.
  induction s as [|x s IH]; intros spre wpre w k Hs Hw; [reflexivity|].
  cbn [length seq for_list].
  rewrite (index_at_length spre (x :: s) k Hs), (index_at_length wpre w k Hw).
  destruct w as [|y w]; [reflexivity|].
  cbn [index nth_error bind].
  specialize (IH (spre ++ [x]) (wpre ++ [y]) w (S k)).
  rewrite <- !app_assoc in IH. cbn [app] in IH.
  rewrite IH by (rewrite length_app; simpl; lia).
  cbn [length Nat.leb]. destruct (length s <=? length w); reflexivity.
Qed.

Lemma compose_ok (samples weights : list (list float)) :
  Forall2 (fun s w => length s = length w) samples weights ->
  compose samples weights = Ok (zip_measures samples weights).
Proof.
  intros Hshape. unfold compose, zip_measures.
  change (range (length samples)) with (seq 0 (length samples)).
  etransitivity; [|apply for_list_pure].
  replace (length samples) with (length (combine samples weights))
    by (rewrite length_combine, <- (Forall2_length_eq _ _ _ Hshape); lia).
  apply for_list_range. intros i [s w] Hi.
  pose proof (Forall2_combine _ _ _ Hshape _ (nth_error_In _ _ Hi)) as Hlen.
  destruct (nth_error_combine _ _ _ _ _ Hi) as [Hs Hw].
  cbn [fst snd Nat.add] in *.
  rewrite (index_Some _ _ _ Hs), (index_Some _ _ _ Hw). cbn [bind].
  etransitivity; [exact (zip_loop s [] [] w 0 eq_refl eq_refl)|].
  rewrite Hlen, Nat.leb_refl. reflexivity.
Qed.

(** ** [flatten] *)

Lemma flatten_rows (c : product_measure.t) (rv : list (list float)) :
  fold_left
    (fun rv ci =>
       (rv ++ [dirac_measure.weights ci]) ++ [dirac_measure.coords ci])
    c rv
  = rv ++ flat_map
            (fun ci => [dirac_measure.weights ci; dirac_measure.coords ci]) c.
Proof.
  revert rv. induction c as [|d c IH]; intros rv; simpl.
  - symmetry. apply app_nil_r.
  - rewrite IH, <- !app_assoc. reflexivity.
Qed.

Lemma concat_rows (c : product_measure.t) :
  concat
    (flat_map
       (fun ci => [dirac_measure.weights ci; dirac_measure.coords ci]) c)
  = flat_map
      (fun ci => dirac_measure.weights ci ++ dirac_measure.coords ci) c.
Proof.
  induction c as [|d c IH]; simpl; [reflexivity|].
  rewrite IH, app_assoc. reflexivity.
Qed.

Lemma flatten_ok (c : product_measure.t) :
  flatten c
  = Ok (flat_map
          (fun ci => dirac_measure.weights ci ++ dirac_measure.coords ci) c).
Proof.
  unfold flatten, range.
  rewrite for_acc_range
    with (g := fun rv ci =>
                 Ok ((rv ++ [dirac_measure.weights ci])
                       ++ [dirac_measure.coords ci])).
  - rewrite for_acc_pure, flatten_rows. cbn [bind app].
    rewrite concat_rows. reflexivity.
  - intros rv i d Hi. cbn [Nat.add]. rewrite (index_Some _ _ _ Hi).
    reflexivity.
Qed.

(** ** [_nested_split] undoes the layout of [flatten] *)

Lemma nested_split_flat (c : product_measure.t) :
  _nested_split
    (flat_map
       (fun ci => dirac_measure.weights ci ++ dirac_measure.coords ci) c)
    (map dirac_measure.npts c)
  = (map dirac_measure.weights c, map dirac_measure.coords c).
Proof.
  induction c as [|d c IH]; [reflexivity|].
  cbn [flat_map map _nested_split].
  assert (Hw : length (dirac_measure.weights d) = dirac_measure.npts d)
    by apply length_map.
  assert (Hx : length (dirac_measure.coords d) = dirac_measure.npts d)
    by apply length_map.
  rewrite <- app_assoc.
  rewrite (firstn_exact _ _ _ Hw), (skipn_exact _ _ _ Hw).
  rewrite (firstn_exact _ _ _ Hx), (skipn_exact _ _ _ Hx).
  rewrite IH. reflexivity.
Qed.

Lemma unflatten_flatten (c : product_measure.t) :
  (params <- flatten c ;; unflatten params (map dirac_measure.npts c))
  = Ok c.
Proof.
  rewrite flatten_ok. cbn [bind]. unfold unflatten.
  rewrite nested_split_flat.
  rewrite compose_ok.
  - rewrite zip_measures_self. reflexivity.
  - induction c as [|d c IH]; simpl; constructor; [|exact IH].
    unfold dirac_measure.coords, dirac_measure.weights,
      dirac_measure.__positions, dirac_measure.__weights.
    rewrite !length_map. reflexivity.
Qed.

Lemma decompose_zip (samples weights : list (list float)) :
  Forall2 (fun s w => length s = length w) samples weights ->
  decompose (zip_measures samples weights) = Ok (samples, weights).
Proof.
  intros Hshape. unfold decompose.
  rewrite flatten_ok. cbn [bind].
  rewrite nested_split_flat.
  rewrite (zip_measures_coords _ _ Hshape), (zip_measures_weights _ _ Hshape).
  reflexivity.
Qed.

(** ** Size of the joint grid *)

Lemma flat_map_length_const {A B : Type} (f : A -> list B) (l : list A)
  (n : nat) :
  (forall a, length (f a) = n) -> length (flat_map f l) = n * length l.
Proof.
  intros Hf. induction l as [|a l IH]; simpl; [lia|].
  rewrite length_app, Hf, IH. lia.
Qed.

Lemma pack_length {A : Type} (samples : list (list A)) :
  length (_pack samples) = product (map (@length A) samples).
Proof.
  induction samples as [|pool rest IH]; simpl; [reflexivity|].
  rewrite (flat_map_length_const _ _ (length pool))
    by (intros; apply length_map).
  rewrite IH. reflexivity.
Qed.

Lemma npts_from (c : product_measure.t) (n : nat) :
  fold_left (fun npts i => npts * dirac_measure.npts i) c n
  = n * product (map dirac_measure.npts c).
Proof.
  revert n. induction c as [|d c IH]; intros n; simpl; [lia|].
  rewrite IH. lia.
Qed.

Lemma npts_product (c : product_measure.t) :
  product_measure.npts c = product (map dirac_measure.npts c).
Proof.
  unfold product_measure.npts, product_measure.__n.
  rewrite npts_from. lia.
Qed.

Lemma coords_length (c : product_measure.t) :
  length (product_measure.coords c) = product_measure.npts c.
Proof.
  unfold product_measure.coords, product_measure.__positions.
  rewrite pack_length, npts_product, map_map. f_equal.
  apply map_ext. intros d. apply length_map.
Qed.

Lemma weights_length (c : product_measure.t) :
  length (product_measure.weights c) = product_measure.npts c.
Proof.
  unfold product_measure.weights, product_measure.__weights.
  rewrite length_map, pack_length, npts_product, map_map. f_equal.
  apply map_ext. intros d. apply length_map.
Qed.

(** ** The loop of [pof] *)

Lemma index_nth {A : Type} (l : list A) (i : nat) (d : A) :
  i < length l -> index l i = Ok (nth i l d).
Proof.
  intros Hi. unfold index.
  rewrite (nth_error_nth' l d Hi). reflexivity.
Qed.

Lemma pof_loop (coords : list (list float)) (weights : list float)
  (f : list float -> float) (idx : list nat) (u : pynum) :
  Forall (fun i => i < length coords /\ i < length weights) idx ->
  for_acc
    (fun u i =>
       x <- index coords i ;;
       if (f x <=? 0)%float
       then w <- index weights i ;; Ok (py_add u w)
       else Ok u)
    idx u
  = Ok (fold_left py_add
          (map (fun i => nth i weights 0%float)
               (filter (fun i => (f (nth i coords []) <=? 0)%float) idx))
          u).
Proof.
  intros Hidx. revert u.
  induction Hidx as [|i idx [Hc Hw] _ IH]; intros u; [reflexivity|].
  cbn [for_acc filter].
  rewrite (index_nth coords i [] Hc). cbn [bind].
  destruct (f (nth i coords []) <=? 0)%float.
  - rewrite (index_nth weights i 0%float Hw). cbn [bind map fold_left].
    apply IH.
  - apply IH.
Qed.

Lemma range_bound (n : nat) : Forall (fun i => i < n) (range n).
Proof.
  apply Forall_forall. intros i Hi. apply in_seq in Hi. lia.
Qed.

Lemma pof_value (c : product_measure.t) (f : list float -> float) :
  product_measure.pof c f
  = Ok (fold_left py_add
          (map (fun i => nth i (product_measure.weights c) 0%float)
               (failures c f))
          PyInt0).
Proof.
  unfold product_measure.pof, failures. apply pof_loop.
  eapply Forall_impl; [|apply range_bound].
  intros i Hi. cbn beta in Hi. rewrite coords_length, weights_length. lia.
Qed.

Lemma filter_all {A : Type} (p : A -> bool) (l : list A) :
  (forall a, p a = true) -> filter p l = l.
Proof.
  intros Hp. induction l as [|a l IH]; simpl; [reflexivity|].
  rewrite Hp, IH. reflexivity.
Qed.

Lemma filter_none {A : Type} (p : A -> bool) (l : list A) :
  (forall a, p a = false) -> filter p l = [].
Proof.
  intros Hp. induction l as [|a l IH]; simpl; [reflexivity|].
  rewrite Hp. exact IH.
Qed.

Lemma map_nth_range {A : Type} (l : list A) (d : A) :
  map (fun i => nth i l d) (range (length l)) = l.
Proof.
  unfold range. induction l as [|a l IH]; simpl; [reflexivity|].
  f_equal. rewrite <- seq_shift, map_map. exact IH.
Qed.

(** ** The element-wise setters of [dirac_measure] *)

Lemma store_at_length {A : Type} (pre l : list A) (a v : A) (k : nat) :
  length pre = k -> store (pre ++ a :: l) k v = pre ++ v :: l.
Proof.
  intros <-. induction pre as [|b pre IH]; simpl; [reflexivity|].
  rewrite IH. reflexivity.
Qed.

Section Setter.

Variable set : point.t -> float -> point.t.
Variable q : list float.
Variable step : dirac_measure.t -> nat -> dirac_measure.t * result unit.

Hypothesis step_eq : forall self i,
  step self i =
  match index q i with
  | Raise e => (self, Raise e)
  | Ok x =>
      match index self i with
      | Raise e => (self, Raise e)
      | Ok p => (store self i (set p x), Ok tt)
      end
  end.

Lemma mutate_from (q' : list float) :
  forall (qpre : list float) (pre s : dirac_measure.t) (k : nat),
  q = qpre ++ q' -> length qpre = k -> length pre = k ->
  dirac_measure.mutate step (seq k (length q')) (pre ++ s)
  = (pre ++ overwrite set s q',
     if length q' <=? length s then Ok tt else Raise IndexError).
Proof.
  induction q' as [|x q'' IH]; intros qpre pre s k Hq Hqpre Hpre.
  - destruct s; reflexivity.
  - cbn [length seq dirac_measure.mutate]. rewrite step_eq.
    rewrite Hq at 1. rewrite (index_at_length qpre (x :: q'') k Hqpre).
    rewrite (index_at_length pre s k Hpre).
    destruct s as [|p s]; [reflexivity|].
    cbn [index nth_error]. rewrite (store_at_length pre s p _ k Hpre).
    specialize (IH (qpre ++ [x]) (pre ++ [set p x]) s (S k)).
    rewrite <- !app_assoc in IH. cbn [app] in IH.
    rewrite IH; [reflexivity|exact Hq| |]; rewrite length_app; simpl; lia.
Qed.

Lemma mutate_range (self : dirac_measure.t) :
  dirac_measure.mutate step (range (length q)) self
  = (overwrite set self q,
     if length q <=? length self then Ok tt else Raise IndexError).
Proof. exact (mutate_from q [] [] self 0 eq_refl eq_refl eq_refl). Qed.

End Setter.

Lemma set_positions_eq (self : dirac_measure.t) (positions : list float) :
  dirac_measure.__set_positions self positions
  = (overwrite point.set_position self positions,
     if length positions <=? length self then Ok tt else Raise IndexError).
Proof.
  unfold dirac_measure.__set_positions. apply mutate_range.
  intros s i. reflexivity.
Qed.

Lemma set_weights_eq (self : dirac_measure.t) (weights : list float) :
  dirac_measure.__set_weights self weights
  = (overwrite point.set_weight self weights,
     if length weights <=? length self then Ok tt else Raise IndexError).
Proof.
  unfold dirac_measure.__set_weights. apply mutate_range.
  intros s i. reflexivity.
Qed.

Lemma overwrite_length (set : point.t -> float -> point.t)
  (self : dirac_measure.t) (q : list float) :
  length (overwrite set self q) = length self.
Proof.
  revert q. induction self as [|p self IH]; intros [|x q]; simpl;
    try reflexivity.
  rewrite IH. reflexivity.
Qed.

Lemma overwrite_positions_coords (self : dirac_measure.t) (q : list float) :
  dirac_measure.coords (overwrite point.set_position self q)
  = firstn (length self) q ++ skipn (length q) (dirac_measure.coords self).
Proof.
  unfold dirac_measure.coords, dirac_measure.__positions.
  revert q. induction self as [|p self IH]; intros [|x q]; simpl;
    try reflexivity.
  rewrite IH. reflexivity.
Qed.

Lemma overwrite_positions_weights (self : dirac_measure.t) (q : list float) :
  dirac_measure.weights (overwrite point.set_position self q)
  = dirac_measure.weights self.
Proof.
  unfold dirac_measure.weights, dirac_measure.__weights.
  revert q. induction self as [|p self IH]; intros [|x q]; simpl;
    try reflexivity.
  rewrite IH. reflexivity.
Qed.

Lemma overwrite_weights_weights (self : dirac_measure.t) (q : list float) :
  dirac_measure.weights (overwrite point.set_weight self q)
  = firstn (length self) q ++ skipn (length q) (dirac_measure.weights self).
Proof.
  unfold dirac_measure.weights, dirac_measure.__weights.
  revert q. induction self as [|p self IH]; intros [|x q]; simpl;
    try reflexivity.
  rewrite IH. reflexivity.
Qed.

Lemma overwrite_weights_coords (self : dirac_measure.t) (q : list float) :
  dirac_measure.coords (overwrite point.set_weight self q)
  = dirac_measure.coords self.
Proof.
  unfold dirac_measure.coords, dirac_measure.__positions.
  revert q. induction self as [|p self IH]; intros [|x q]; simpl;
    try reflexivity.
  rewrite IH. reflexivity.
Qed.

(** * The claims *)

(** C1, at a concrete input: on the two-point measure [dimA], assigning the
    one-element sequence [[5.0]] to [coords] raises nothing and overwrites
    the first position, and assigning the three-element sequence
    [[5.0, 6.0, 7.0]] raises only after both positions are overwritten.  So
    a sequence of the wrong length is not rejected with the positions left
    as they were. *)
Lemma setter_wrong_length_not_rejected :
  (length [5%float] <> dirac_measure.npts dimA /\
   ~ ((exists e,
         snd (dirac_measure.__set_positions dimA [5%float]) = Raise e) /\
      dirac_measure.coords (fst (dirac_measure.__set_positions dimA [5%float]))
      = dirac_measure.coords dimA)) /\
  (length [5; 6; 7]%float <> dirac_measure.npts dimA /\
   ~ ((exists e,
         snd (dirac_measure.__set_positions dimA [5; 6; 7]%float) = Raise e) /\
      dirac_measure.coords
        (fst (dirac_measure.__set_positions dimA [5; 6; 7]%float))
      = dirac_measure.coords dimA)).
Proof.
  split; (split; [cbn; lia|]).
  - intros [[e He] _]. cbn in He. discriminate He.
  - intros [_ H]. cbn in H.
    apply (f_equal (fun l => match l with
                             | x :: _ => (x =? 0)%float
                             | [] => true
                             end)) in H.
    vm_compute in H. discriminate H.
Qed.

(** C1 (amended): the element-wise setters do not compare lengths before
    they write.  For a sequence [q] whose length differs from [s.npts],
    [s.coords = q] keeps [npts] and every weight; when [q] is shorter it
    raises nothing, the first [len(q)] positions become [q] and the later
    ones are untouched; when [q] is longer it writes the first [npts]
    elements of [q] over all the positions and then raises [IndexError].
    [s.weights = q] does the same with weights and positions exchanged. *)
Theorem setter_wrong_length (s : dirac_measure.t) (q : list float) :
  length q <> dirac_measure.npts s ->
  (let s' := fst (dirac_measure.__set_positions s q) in
   let r := snd (dirac_measure.__set_positions s q) in
   dirac_measure.npts s' = dirac_measure.npts s /\
   dirac_measure.weights s' = dirac_measure.weights s /\
   (length q < dirac_measure.npts s ->
    r = Ok tt /\
    dirac_measure.coords s'
    = q ++ skipn (length q) (dirac_measure.coords s)) /\
   (dirac_measure.npts s < length q ->
    r = Raise IndexError /\
    dirac_measure.coords s' = firstn (dirac_measure.npts s) q))
  /\
  (let s' := fst (dirac_measure.__set_weights s q) in
   let r := snd (dirac_measure.__set_weights s q) in
   dirac_measure.npts s' = dirac_measure.npts s /\
   dirac_measure.coords s' = dirac_measure.coords s /\
   (length q < dirac_measure.npts s ->
    r = Ok tt /\
    dirac_measure.weights s'
    = q ++ skipn (length q) (dirac_measure.weights s)) /\
   (dirac_measure.npts s < length q ->
    r = Raise IndexError /\
    dirac_measure.weights s' = firstn (dirac_measure.npts s) q)).
Proof.
  intros _. cbv zeta. rewrite set_positions_eq, set_weights_eq.
  cbn [fst snd]. unfold dirac_measure.npts, dirac_measure.__n.
  rewrite !overwrite_length, overwrite_positions_coords,
    overwrite_positions_weights, overwrite_weights_weights,
    overwrite_weights_coords.
  assert (Hcut : forall l : list float,
             length l = length s ->
             (length q < length s ->
              firstn (length s) q ++ skipn (length q) l
              = q ++ skipn (length q) l) /\
             (length s < length q ->
              firstn (length s) q ++ skipn (length q) l
              = firstn (length s) q)).
  { intros l Hl. split; intros Hlt.
    - rewrite firstn_all2 by lia. reflexivity.
    - rewrite skipn_all2 by lia. apply app_nil_r. }
  assert (Hx : length (dirac_measure.coords s) = length s)
    by apply length_map.
  assert (Hw : length (dirac_measure.weights s) = length s)
    by apply length_map.
  destruct (Hcut _ Hx) as [Hx1 Hx2], (Hcut _ Hw) as [Hw1 Hw2].
  assert (Hok : length q < length s ->
                (if length q <=? length s then Ok tt else Raise IndexError)
                = Ok tt).
  { intros Hlt. apply Nat.lt_le_incl, Nat.leb_le in Hlt.
    rewrite Hlt. reflexivity. }
  assert (Herr : length s < length q ->
                 (if length q <=? length s then Ok tt else Raise IndexError)
                 = Raise IndexError).
  { intros Hlt. apply Nat.leb_gt in Hlt. rewrite Hlt. reflexivity. }
  repeat split; auto.
Qed.

(** The amended C1 on [dimA] and the one-element sequence [[5.0]]. *)
Lemma setter_wrong_length_witness :
  length [5%float] <> dirac_measure.npts dimA /\
  snd (dirac_measure.__set_positions dimA [5%float]) = Ok tt /\
  dirac_measure.coords (fst (dirac_measure.__set_positions dimA [5%float]))
  = [5; 1]%float.
Proof.
  assert (H : length [5%float] <> dirac_measure.npts dimA)
    by (simpl; discriminate).
  split; [exact H|].
  destruct (setter_wrong_length dimA [5%float] H) as [[_ [_ [Hshort _]]] _].
  apply Hshort. simpl. lia.
Defined.

(** C2: [c.pof(f)] returns the sum, taken in grid order from the [int] [0],
    of [c.weights[i]] over exactly the grid indices [i] with
    [f(c.coords[i]) <= 0.0], without renormalization.  With [f] equal to
    [1.0] everywhere the result is the [int] [0], which equals [0.0]; with
    [f] equal to [-1.0] everywhere it is [sum(c.weights)]. *)
Theorem pof_sums_failure_weights (c : product_measure.t) :
  (forall f : list float -> float,
     product_measure.pof c f
     = Ok (fold_left py_add
             (map (fun i => nth i (product_measure.weights c) 0%float)
                  (filter
                     (fun i =>
                        (f (nth i (product_measure.coords c) []) <=? 0)%float)
                     (range (product_measure.npts c))))
             PyInt0)) /\
  (product_measure.pof c (fun _ => 1%float) = Ok PyInt0 /\
   py_eq PyInt0 (PyFloat 0) = true) /\
  product_measure.pof c (fun _ => (-1)%float)
  = Ok (py_sum (product_measure.weights c)).
Proof.
  split; [|split; [split|]].
  - intros f. apply pof_value.
  - rewrite pof_value. unfold failures.
    rewrite filter_none by (intros i; reflexivity). reflexivity.
  - reflexivity.
  - rewrite pof_value. unfold failures.
    rewrite filter_all by (intros i; reflexivity).
    rewrite <- weights_length, map_nth_range. reflexivity.
Qed.

(** C3: flattening a product measure and unflattening the result with the
    per-dimension point counts succeeds and gives a measure with the same
    [coords] and the same [weights], element for element. *)
Theorem unflatten_flatten_roundtrip (c : product_measure.t) :
  exists c' : product_measure.t,
    (params <- flatten c ;; unflatten params (map dirac_measure.npts c))
    = Ok c' /\
    product_measure.coords c' = product_measure.coords c /\
    product_measure.weights c' = product_measure.weights c.
Proof.
  exists c. rewrite unflatten_flatten. repeat split.
Qed.

(** C4: the joint weights, the joint positions and [npts] agree in size, and
    [npts] is the product of the point counts of the dimensions. *)
Theorem grid_views_agree (c : product_measure.t) :
  length (product_measure.weights c) = length (product_measure.coords c) /\
  length (product_measure.coords c) = product_measure.npts c /\
  product_measure.npts c = product (map dirac_measure.npts c).
Proof.
  rewrite weights_length, coords_length. repeat split.
  apply npts_product.
Qed.

(** C5: for nested positions and weights with the same outer length and the
    same inner length in every dimension, [compose] succeeds and
    [decompose] of its result is the pair (positions, weights). *)
Theorem decompose_compose_roundtrip (positions weights : list (list float)) :
  length positions = length weights ->
  Forall2 (fun p w => length p = length w) positions weights ->
  (c <- compose positions weights ;; decompose c) = Ok (positions, weights).
Proof.
  intros _ Hshape. rewrite (compose_ok _ _ Hshape). cbn [bind].
  apply decompose_zip. exact Hshape.
Qed.

(** C5 on the positions and weights of the two-dimensional example. *)
Lemma decompose_compose_roundtrip_witness :
  (c <- compose [[0; 1]; [2]]%float [[0.5; 0.5]; [1]]%float ;; decompose c)
  = Ok ([[0; 1]; [2]]%float, [[0.5; 0.5]; [1]]%float).
Proof.
  apply decompose_compose_roundtrip.
  - reflexivity.
  - repeat constructor.
Defined.

(** C6: [flatten(c)] is the concatenation, over the dimensions of [c] in
    order, of the dimension's weights followed by its positions. *)
Theorem flatten_layout (c : product_measure.t) :
  flatten c
  = Ok (concat
          (map (fun d => dirac_measure.weights d ++ dirac_measure.coords d)
               c)).
Proof.
  rewrite flatten_ok, flat_map_concat_map. reflexivity.
Qed.

(** C7: composing dimension A (positions [[0, 1]], weights [[0.5, 0.5]])
    with dimension B (position [[2]], weight [[1.0]]) gives a measure with
    [npts == 2], [coords == [(0, 2), (1, 2)]], [weights == [0.5, 0.5]] and
    [mass == [1.0, 1.0]]. *)
Theorem two_dimensional_example :
  compose [[0; 1]; [2]]%float [[0.5; 0.5]; [1]]%float = Ok [dimA; dimB] /\
  product_measure.npts [dimA; dimB] = 2 /\
  product_measure.coords [dimA; dimB] = [[0; 2]; [1; 2]]%float /\
  product_measure.weights [dimA; dimB] = [0.5; 0.5]%float /\
  product_measure.mass [dimA; dimB] = Ok [PyFloat 1; PyFloat 1].
Proof. repeat split. Qed.

(** C8: whatever the external [impose_spread] and [impose_mean] return,
    [s.range = r] and [s.mean = m] leave every weight and [s.npts] as they
    were; they write positions only, and when the routine returns [npts]
    new positions the assignment succeeds and [s.coords] is exactly that
    output. *)
Theorem range_mean_setters_frame
  (impose_spread impose_mean
     : float -> list float -> list float -> result (list float))
  (s : dirac_measure.t) (r m : float) :
  (let s' := fst (dirac_measure.__set_range impose_spread s r) in
   dirac_measure.weights s' = dirac_measure.weights s /\
   dirac_measure.npts s' = dirac_measure.npts s /\
   (forall out,
      impose_spread r (dirac_measure.coords s) (dirac_measure.weights s)
      = Ok out ->
      length out = dirac_measure.npts s ->
      snd (dirac_measure.__set_range impose_spread s r) = Ok tt /\
      dirac_measure.coords s' = out))
  /\
  (let s' := fst (dirac_measure.__set_mean impose_mean s m) in
   dirac_measure.weights s' = dirac_measure.weights s /\
   dirac_measure.npts s' = dirac_measure.npts s /\
   (forall out,
      impose_mean m (dirac_measure.coords s) (dirac_measure.weights s)
      = Ok out ->
      length out = dirac_measure.npts s ->
      snd (dirac_measure.__set_mean impose_mean s m) = Ok tt /\
      dirac_measure.coords s' = out)).
Proof.
  assert (Hset : forall out : list float,
             let s' := fst (dirac_measure.__set_positions s out) in
             dirac_measure.weights s' = dirac_measure.weights s /\
             dirac_measure.npts s' = dirac_measure.npts s /\
             (length out = dirac_measure.npts s ->
              snd (dirac_measure.__set_positions s out) = Ok tt /\
              dirac_measure.coords s' = out)).
  { intros out. cbv zeta. rewrite set_positions_eq. cbn [fst snd].
    unfold dirac_measure.npts, dirac_measure.__n.
    rewrite overwrite_length, overwrite_positions_coords,
      overwrite_positions_weights.
    repeat split.
    - rewrite H, Nat.leb_refl. reflexivity.
    - rewrite <- H, firstn_all, skipn_all2, app_nil_r; [reflexivity|].
      unfold dirac_measure.coords, dirac_measure.__positions.
      rewrite length_map. lia. }
  cbv zeta. unfold dirac_measure.__set_range, dirac_measure.__set_mean.
  split.
  - destruct (impose_spread r (dirac_measure.coords s)
                (dirac_measure.weights s)) as [out|e].
    + destruct (Hset out) as [Hw [Hn Hx]].
      split; [exact Hw|]. split; [exact Hn|].
      intros out' Hout Hlen. injection Hout as <-. apply Hx, Hlen.
    + cbn [fst snd]. split; [reflexivity|]. split; [reflexivity|].
      intros out' Hout. discriminate Hout.
  - destruct (impose_mean m (dirac_measure.coords s)
                (dirac_measure.weights s)) as [out|e].
    + destruct (Hset out) as [Hw [Hn Hx]].
      split; [exact Hw|]. split; [exact Hn|].
      intros out' Hout Hlen. injection Hout as <-. apply Hx, Hlen.
    + cbn [fst snd]. split; [reflexivity|]. split; [reflexivity|].
      intros out' Hout. discriminate Hout.
Qed.

(** C8 on [dimA], with [shift_by] for the external routine. *)
Lemma range_mean_setters_frame_witness :
  snd (dirac_measure.__set_range shift_by dimA 2) = Ok tt /\
  dirac_measure.coords (fst (dirac_measure.__set_range shift_by dimA 2))
  = [2; 3]%float.
Proof.
  destruct (range_mean_setters_frame shift_by shift_by dimA 2 2)
    as [[_ [_ Hrange]] _].
  apply Hrange; reflexivity.
Defined.

(** C9: [flatten(c)] succeeds and its length is twice the sum of the point
    counts of the dimensions, the length [unflatten] expects. *)
Theorem flatten_length (c : product_measure.t) :
  exists params : list float,
    flatten c = Ok params /\
    length params = 2 * list_sum (map dirac_measure.npts c).
Proof.
  eexists. split; [apply flatten_ok|].
  induction c as [|d c IH]; [reflexivity|].
  cbn [flat_map map list_sum fold_right]. rewrite !length_app, IH.
  fold (list_sum (map dirac_measure.npts c)).
  unfold dirac_measure.weights, dirac_measure.coords, dirac_measure.npts,
    dirac_measure.__weights, dirac_measure.__positions, dirac_measure.__n.
  rewrite !length_map. lia.
Qed.

(** C10: a product measure with no dimension has [npts == 1], and for any
    product measure [__n] is the product of the point counts of its
    dimensions, accumulated from [1]. *)
Theorem npts_empty_product :
  product_measure.__n [] = 1 /\
  (forall c : product_measure.t,
     product_measure.__n c = product (map dirac_measure.npts c)) /\
  (forall (c : product_measure.t) (d : dirac_measure.t),
     product_measure.__n (c ++ [d])
     = product_measure.__n c * dirac_measure.npts d).
Proof.
  split; [reflexivity|]. split.
  - exact npts_product.
  - intros c d. unfold product_measure.__n. rewrite fold_left_app.
    reflexivity.
Qed.

(** * Further properties of the code *)

(** ** Setters given a sequence of the right length *)

Lemma overwrite_positions_zip (self : dirac_measure.t) (q : list float) :
  length q = length self ->
  overwrite point.set_position self q
  = zip_points q (dirac_measure.weights self).
Proof.
  unfold zip_points, dirac_measure.weights, dirac_measure.__weights.
  revert q. induction self as [|p self IH]; intros [|x q]; simpl;
    try discriminate; [reflexivity|].
  intros H. f_equal. apply IH. congruence.
Qed.

Lemma overwrite_weights_zip (self : dirac_measure.t) (q : list float) :
  length q = length self ->
  overwrite point.set_weight self q
  = zip_points (dirac_measure.coords self) q.
Proof.
  unfold zip_points, dirac_measure.coords, dirac_measure.__positions.
  revert q. induction self as [|p self IH]; intros [|x q]; simpl;
    try discriminate; [reflexivity|].
  intros H. f_equal. apply IH. congruence.
Qed.

Lemma zip_points_length (xs ws : list float) :
  length xs = length ws -> length (zip_points xs ws) = length xs.
Proof.
  intros H. unfold zip_points.
  rewrite length_map, length_combine. lia.
Qed.

Lemma set_positions_exact (s : dirac_measure.t) (q : list float) :
  length q = length s ->
  dirac_measure.__set_positions s q
  = (zip_points q (dirac_measure.weights s), Ok tt).
Proof.
  intros Hlen.
  rewrite set_positions_eq, Hlen, Nat.leb_refl.
  rewrite (overwrite_positions_zip s q Hlen). reflexivity.
Qed.

Lemma set_weights_exact (s : dirac_measure.t) (q : list float) :
  length q = length s ->
  dirac_measure.__set_weights s q
  = (zip_points (dirac_measure.coords s) q, Ok tt).
Proof.
  intros Hlen.
  rewrite set_weights_eq, Hlen, Nat.leb_refl.
  rewrite (overwrite_weights_zip s q Hlen). reflexivity.
Qed.

Lemma coords_length_dirac (s : dirac_measure.t) :
  length (dirac_measure.coords s) = length s.
Proof. apply length_map. Qed.

Lemma weights_length_dirac (s : dirac_measure.t) :
  length (dirac_measure.weights s) = length s.
Proof. apply length_map. Qed.

(** X1: a sequence of exactly [npts] elements is accepted by both setters:
    the call raises nothing, the measure becomes the points pairing the new
    positions with the old weights (resp. the old positions with the new
    weights), so reading the attribute back gives the sequence assigned. *)
Theorem setter_right_length (s : dirac_measure.t) (q : list float) :
  length q = dirac_measure.npts s ->
  (dirac_measure.__set_positions s q
   = (zip_points q (dirac_measure.weights s), Ok tt) /\
   dirac_measure.coords (fst (dirac_measure.__set_positions s q)) = q) /\
  (dirac_measure.__set_weights s q
   = (zip_points (dirac_measure.coords s) q, Ok tt) /\
   dirac_measure.weights (fst (dirac_measure.__set_weights s q)) = q).
Proof.
  unfold dirac_measure.npts, dirac_measure.__n. intros Hlen.
  rewrite (set_positions_exact s q Hlen), (set_weights_exact s q Hlen).
  cbn [fst].
  rewrite zip_points_coords by (rewrite weights_length_dirac; exact Hlen).
  rewrite zip_points_weights by (rewrite coords_length_dirac; congruence).
  repeat split.
Qed.

(** X1 on [dimA] and the positions [[3.0, 4.0]]. *)
Lemma setter_right_length_witness :
  dirac_measure.__set_positions dimA [3; 4]%float
  = ([point.mk 3 0.5; point.mk 4 0.5], Ok tt).
Proof.
  destruct (setter_right_length dimA [3; 4]%float eq_refl) as [[H _] _].
  exact H.
Defined.

(** X2: assigning an attribute its own current value changes nothing:
    [s.coords = s.coords] and [s.weights = s.weights] return normally and
    leave every point as it was. *)
Theorem setter_of_getter (s : dirac_measure.t) :
  dirac_measure.__set_positions s (dirac_measure.coords s) = (s, Ok tt) /\
  dirac_measure.__set_weights s (dirac_measure.weights s) = (s, Ok tt).
Proof.
  rewrite (set_positions_exact s _ (coords_length_dirac s)).
  rewrite (set_weights_exact s _ (weights_length_dirac s)).
  rewrite zip_points_self. split; reflexivity.
Qed.

(** X3: with sequences of [npts] elements, [s.coords = x] followed by
    [s.weights = w] and the two assignments in the other order both return
    normally and leave the same measure: the points [(x[i], w[i])]. *)
Theorem setters_commute (s : dirac_measure.t) (x w : list float) :
  length x = dirac_measure.npts s ->
  length w = dirac_measure.npts s ->
  and_then (dirac_measure.__set_positions s x)
           (fun s' => dirac_measure.__set_weights s' w)
  = (zip_points x w, Ok tt) /\
  and_then (dirac_measure.__set_weights s w)
           (fun s' => dirac_measure.__set_positions s' x)
  = (zip_points x w, Ok tt).
Proof.
  unfold dirac_measure.npts, dirac_measure.__n. intros Hx Hw.
  rewrite (set_positions_exact s x Hx), (set_weights_exact s w Hw).
  cbn [and_then].
  assert (Hxw : length x = length (dirac_measure.weights s))
    by (rewrite weights_length_dirac; exact Hx).
  assert (Hwx : length (dirac_measure.coords s) = length w)
    by (rewrite coords_length_dirac; congruence).
  rewrite set_weights_exact
    by (rewrite (zip_points_length _ _ Hxw); congruence).
  rewrite set_positions_exact
    by (rewrite (zip_points_length _ _ Hwx), coords_length_dirac; exact Hx).
  rewrite (zip_points_coords _ _ Hxw), (zip_points_weights _ _ Hwx).
  split; reflexivity.
Qed.

(** X3 on [dimA]. *)
Lemma setters_commute_witness :
  and_then (dirac_measure.__set_weights dimA [0.25; 0.75]%float)
           (fun s' => dirac_measure.__set_positions s' [3; 4]%float)
  = ([point.mk 3 0.25; point.mk 4 0.75], Ok tt).
Proof.
  destruct (setters_commute dimA [3; 4]%float [0.25; 0.75]%float
              eq_refl eq_refl) as [_ H].
  exact H.
Defined.

Lemma overwrite_twice (set : point.t -> float -> point.t)
  (s : dirac_measure.t) (q1 q2 : list float) :
  (forall p a b, set (set p a) b = set p b) ->
  length q1 <= length q2 ->
  overwrite set (overwrite set s q1) q2 = overwrite set s q2.
Proof.
  intros Hset. revert q1 q2.
  induction s as [|p s IH]; intros [|a q1] [|b q2] Hlen; simpl in *;
    try reflexivity; try lia.
  rewrite Hset, IH by lia. reflexivity.
Qed.

(** X4: a later assignment overrides an earlier one.  When [q1] fits in the
    measure and [q2] is at least as long as [q1], [s.coords = q1] followed
    by [s.coords = q2] ends in the same measure and the same outcome as
    [s.coords = q2] alone; likewise for [s.weights]. *)
Theorem setter_last_write_wins (s : dirac_measure.t) (q1 q2 : list float) :
  length q1 <= dirac_measure.npts s ->
  length q1 <= length q2 ->
  and_then (dirac_measure.__set_positions s q1)
           (fun s' => dirac_measure.__set_positions s' q2)
  = dirac_measure.__set_positions s q2 /\
  and_then (dirac_measure.__set_weights s q1)
           (fun s' => dirac_measure.__set_weights s' q2)
  = dirac_measure.__set_weights s q2.
Proof.
  unfold dirac_measure.npts, dirac_measure.__n. intros Hfit Hlen.
  rewrite !set_positions_eq, !set_weights_eq.
  apply Nat.leb_le in Hfit. rewrite Hfit. cbn [and_then].
  rewrite set_positions_eq, set_weights_eq, !overwrite_length.
  rewrite !overwrite_twice by (try exact Hlen; intros [? ?] ? ?; reflexivity).
  split; reflexivity.
Qed.

(** X4 on [dimA]: a one-element assignment followed by a full one. *)
Lemma setter_last_write_wins_witness :
  and_then (dirac_measure.__set_positions dimA [9%float])
           (fun s' => dirac_measure.__set_positions s' [3; 4]%float)
  = dirac_measure.__set_positions dimA [3; 4]%float.
Proof.
  destruct (setter_last_write_wins dimA [9%float] [3; 4]%float) as [H _].
  - simpl. lia.
  - simpl. lia.
  - exact H.
Defined.

(** ** [normalize] *)

Lemma overwrite_firstn (set : point.t -> float -> point.t)
  (s : dirac_measure.t) (q : list float) :
  overwrite set s q = overwrite set s (firstn (length s) q).
Proof.
  revert q. induction s as [|p s IH]; intros [|x q]; simpl;
    try reflexivity.
  rewrite <- IH. reflexivity.
Qed.

(** X5: when the external weight-norm routine returns [npts] positions and
    [npts] weights, [normalize] returns normally and the measure becomes
    exactly the points pairing those positions with those weights. *)
Theorem normalize_replaces_points
  (impose_weight_norm
     : list float -> list float -> result (list float * list float))
  (s : dirac_measure.t) (xs ws : list float) :
  impose_weight_norm (dirac_measure.coords s) (dirac_measure.weights s)
  = Ok (xs, ws) ->
  length xs = dirac_measure.npts s ->
  length ws = dirac_measure.npts s ->
  dirac_measure.normalize impose_weight_norm s = (zip_points xs ws, Ok tt).
Proof.
  unfold dirac_measure.npts, dirac_measure.__n, dirac_measure.normalize.
  intros -> Hx Hw.
  rewrite (set_positions_exact s xs Hx).
  assert (Hxw : length xs = length (dirac_measure.weights s))
    by (rewrite weights_length_dirac; exact Hx).
  rewrite set_weights_exact
    by (rewrite (zip_points_length _ _ Hxw); congruence).
  rewrite (zip_points_coords _ _ Hxw). reflexivity.
Qed.

(** X5 on [dimA], with [halve_weights] for the external routine. *)
Lemma normalize_replaces_points_witness :
  dirac_measure.normalize halve_weights dimA
  = ([point.mk 0 0.25; point.mk 1 0.25], Ok tt).
Proof.
  exact (normalize_replaces_points halve_weights dimA
           [0; 1]%float [0.25; 0.25]%float eq_refl eq_refl eq_refl).
Defined.

(** X6: when the external routine returns more than [npts] positions,
    [normalize] raises [IndexError] from the position assignment: by then
    every position has been overwritten with the leading returned
    positions, and the weight assignment never runs, so every weight is
    still the old one whatever weights the routine returned. *)
Theorem normalize_stops_after_positions
  (impose_weight_norm
     : list float -> list float -> result (list float * list float))
  (s : dirac_measure.t) (xs ws : list float) :
  impose_weight_norm (dirac_measure.coords s) (dirac_measure.weights s)
  = Ok (xs, ws) ->
  dirac_measure.npts s < length xs ->
  dirac_measure.normalize impose_weight_norm s
  = (zip_points (firstn (dirac_measure.npts s) xs) (dirac_measure.weights s),
     Raise IndexError).
Proof.
  unfold dirac_measure.npts, dirac_measure.__n, dirac_measure.normalize.
  intros -> Hlong.
  rewrite set_positions_eq.
  assert (Hgt : (length xs <=? length s) = false)
    by (apply Nat.leb_gt; exact Hlong).
  rewrite Hgt, overwrite_firstn, overwrite_positions_zip; [reflexivity|].
  apply firstn_length_le. lia.
Qed.

(** X6 on [dimA], with [one_position_more] for the external routine. *)
Lemma normalize_stops_after_positions_witness :
  dirac_measure.normalize one_position_more dimA
  = ([point.mk 1 0.5; point.mk 2 0.5], Raise IndexError).
Proof.
  apply (normalize_stops_after_positions one_position_more dimA
           [1; 2; 0]%float [0.25; 0.25]%float eq_refl).
  simpl. lia.
Defined.

(** ** Views of a product measure *)

(** X7: [c.mass] never raises: it is the list of the masses of the
    dimensions of [c], in order, one entry per dimension. *)
Theorem product_mass_per_dimension (c : product_measure.t) :
  product_measure.__mass c = Ok (map dirac_measure.mass c).
Proof.
  unfold product_measure.__mass, range.
  rewrite for_list_range with (g := fun d => Ok (dirac_measure.mass d)).
  - apply for_list_pure.
  - intros i d Hi. cbn [Nat.add]. rewrite (index_Some _ _ _ Hi).
    reflexivity.
Qed.

Lemma product_zero (l : list nat) : product l = 0 <-> In 0 l.
Proof.
  induction l as [|n l IH]; simpl.
  - split; [discriminate|contradiction].
  - rewrite Nat.mul_eq_0, IH. tauto.
Qed.

(** X8: the joint grid is empty exactly when some dimension has no point:
    [c.npts == 0] if and only if [c] contains an empty measure. *)
Theorem npts_zero_iff_empty_dimension (c : product_measure.t) :
  product_measure.__n c = 0 <-> In [] c.
Proof.
  change (product_measure.npts c = 0 <-> In [] c).
  rewrite npts_product, product_zero, in_map_iff. split.
  - intros [d [Hd Hin]]. destruct d; [exact Hin|discriminate Hd].
  - intros Hin. exists []. split; [reflexivity|exact Hin].
Qed.

(** X9: the grid size of the dimensions of [c1] followed by those of [c2]
    is the product of the two grid sizes. *)
Theorem npts_of_concatenation (c1 c2 : product_measure.t) :
  product_measure.__n (c1 ++ c2)
  = product_measure.__n c1 * product_measure.__n c2.
Proof.
  change (product_measure.npts (c1 ++ c2)
          = product_measure.npts c1 * product_measure.npts c2).
  rewrite !npts_product, map_app.
  induction (map dirac_measure.npts c1) as [|n l IH]; simpl; [lia|].
  rewrite IH. lia.
Qed.

(** X10: the grid size does not depend on the order of the dimensions. *)
Theorem npts_of_permutation (c1 c2 : product_measure.t) :
  Permutation c1 c2 -> product_measure.__n c1 = product_measure.__n c2.
Proof.
  intros Hperm.
  change (product_measure.npts c1 = product_measure.npts c2).
  rewrite !npts_product.
  induction Hperm as [|d l1 l2 _ IH|d1 d2 l|l1 l2 l3 _ IH1 _ IH2]; simpl.
  - reflexivity.
  - rewrite IH. reflexivity.
  - lia.
  - congruence.
Qed.

(** X10 on the two orders of [dimA] and [dimB]. *)
Lemma npts_of_permutation_witness :
  product_measure.__n [dimA; dimB] = product_measure.__n [dimB; dimA].
Proof.
  apply npts_of_permutation. apply perm_swap.
Defined.

(** ** [pof] *)

(** X11: on a product measure with an empty dimension the grid has no
    point, and [pof] returns the [int] [0] for every [f]. *)
Theorem pof_empty_dimension (c : product_measure.t)
  (f : list float -> float) :
  In [] c -> product_measure.pof c f = Ok PyInt0.
Proof.
  intros Hin. unfold product_measure.pof.
  replace (product_measure.npts c) with 0; [reflexivity|].
  symmetry. rewrite npts_product. apply product_zero, in_map_iff.
  exists []. split; [reflexivity|exact Hin].
Qed.

(** X11 on [dimA] paired with a dimension without points. *)
Lemma pof_empty_dimension_witness :
  product_measure.pof [dimA; []] (fun _ => (-1)%float) = Ok PyInt0.
Proof.
  apply pof_empty_dimension. right. left. reflexivity.
Defined.

Lemma filter_ext_nth {A : Type} (p q : A -> bool) (l : list A) (d : A)
  (idx : list nat) :
  (forall a, In a l -> p a = q a) ->
  Forall (fun i => i < length l) idx ->
  filter (fun i => p (nth i l d)) idx = filter (fun i => q (nth i l d)) idx.
Proof.
  intros Hpq Hidx. induction Hidx as [|i idx Hi _ IH]; simpl; [reflexivity|].
  rewrite (Hpq (nth i l d)) by (apply nth_In; exact Hi).
  rewrite IH. reflexivity.
Qed.

(** X12: [pof] depends on [f] only through the test [f(x) <= 0.0] at the
    grid points: two functions that pass the test at the same points of
    [c.coords] give the same result. *)
Theorem pof_depends_on_sign_only (c : product_measure.t)
  (f g : list float -> float) :
  (forall x, In x (product_measure.coords c) ->
             (f x <=? 0)%float = (g x <=? 0)%float) ->
  product_measure.pof c f = product_measure.pof c g.
Proof.
  intros Hfg. rewrite !pof_value. unfold failures.
  rewrite (filter_ext_nth (fun x => (f x <=? 0)%float)
             (fun x => (g x <=? 0)%float) _ [] _ Hfg); [reflexivity|].
  rewrite coords_length. apply range_bound.
Qed.

(** X12 on the two-dimensional example, for two positive constants. *)
Lemma pof_depends_on_sign_only_witness :
  product_measure.pof [dimA; dimB] (fun _ => 1%float)
  = product_measure.pof [dimA; dimB] (fun _ => 2%float).
Proof.
  apply pof_depends_on_sign_only. intros x _. reflexivity.
Defined.

Lemma sum_from_float (l : list float) (x : float) :
  fold_left py_add l (PyFloat x) <> PyInt0.
Proof.
  revert x. induction l as [|w l IH]; intros x; simpl; [discriminate|].
  apply IH.
Qed.

Lemma filter_nil_iff {A : Type} (p : A -> bool) (l : list A) :
  filter p l = [] <-> forall a, In a l -> p a = false.
Proof.
  induction l as [|a l IH]; simpl.
  - split; [intros _ b []|reflexivity].
  - destruct (p a) eqn:Hpa.
    + split; [discriminate|].
      intros H. rewrite (H a) in Hpa by auto. discriminate Hpa.
    + rewrite IH. split.
      * intros H b [<-|Hb]; [exact Hpa|exact (H b Hb)].
      * intros H b Hb. apply H. auto.
Qed.

(** X13: the value returned by [pof] is the [int] [0] it starts from exactly
    when no grid point fails the test; as soon as one point has
    [f(x) <= 0.0] the result is a float. *)
Theorem pof_int_zero_iff_no_failure (c : product_measure.t)
  (f : list float -> float) :
  product_measure.pof c f = Ok PyInt0 <->
  (forall x, In x (product_measure.coords c) -> (f x <=? 0)%float = false).
Proof.
  rewrite pof_value. unfold failures.
  set (test := fun i => (f (nth i (product_measure.coords c) []) <=? 0)%float).
  assert (Hnil : filter test (range (product_measure.npts c)) = [] <->
                 (forall x, In x (product_measure.coords c) ->
                            (f x <=? 0)%float = false)).
  { rewrite filter_nil_iff. unfold test, range. split.
    - intros H x Hx. destruct (In_nth _ _ [] Hx) as [i [Hi <-]].
      apply H, in_seq. rewrite <- coords_length. lia.
    - intros H i Hi. apply H, nth_In. apply in_seq in Hi.
      rewrite coords_length. lia. }
  rewrite <- Hnil.
  destruct (filter test (range (product_measure.npts c))) as [|i rest].
  - split; reflexivity.
  - split; [|discriminate]. simpl. intros H. injection H as H.
    exfalso. exact (sum_from_float _ _ H).
Qed.

(** ** [compose] on arbitrary input *)

Lemma for_list_ext {A B : Type} (f g : A -> result B) (l : list A) :
  (forall a, In a l -> f a = g a) -> for_list f l = for_list g l.
Proof.
  induction l as [|a l IH]; simpl; intros H; [reflexivity|].
  rewrite (H a) by auto. rewrite IH by auto. reflexivity.
Qed.

Lemma for_list_seq_ok {B : Type} (h : nat -> result B) (n : nat) :
  forall (k : nat) (bs : list B),
  for_list h (seq k n) = Ok bs ->
  length bs = n /\
  forall i, i < n -> exists b, nth_error bs i = Some b /\ h (k + i) = Ok b.
Proof.
  induction n as [|n IH]; intros k bs; simpl.
  - intros H. injection H as <-. split; [reflexivity|]. intros i Hi. lia.
  - destruct (h k) as [b|e] eqn:Hk; simpl; [|discriminate].
    destruct (for_list h (seq (S k) n)) as [bs'|e] eqn:Hrest; simpl;
      [|discriminate].
    intros H. injection H as <-.
    destruct (IH (S k) bs' Hrest) as [Hlen Hnth].
    split; [simpl; congruence|].
    intros [|i] Hi.
    + exists b. rewrite Nat.add_0_r. split; [reflexivity|exact Hk].
    + destruct (Hnth i) as [b' [Hb' Hh]]; [lia|].
      exists b'. split; [exact Hb'|].
      rewrite <- Hh. f_equal. lia.
Qed.

Lemma for_list_seq_all_ok {B : Type} (h : nat -> result B) (n : nat) :
  forall k : nat,
  (forall i, i < n -> exists b, h (k + i) = Ok b) ->
  exists bs, for_list h (seq k n) = Ok bs.
Proof.
  induction n as [|n IH]; intros k H; simpl.
  - exists []. reflexivity.
  - destruct (H 0) as [b Hb]; [lia|]. rewrite Nat.add_0_r in Hb.
    destruct (IH (S k)) as [bs Hbs].
    + intros i Hi. destruct (H (S i)) as [b' Hb']; [lia|].
      exists b'. rewrite <- Hb'. f_equal. lia.
    + exists (b :: bs). rewrite Hb, Hbs. reflexivity.
Qed.

(** The measure [compose] builds for one dimension, from its row of
    samples and the row of weights at the same index (empty when the
    weights have no such row). *)
Lemma compose_row (samples weights : list (list float)) (i : nat) :
  i < length samples ->
  (si <- index samples i ;;
   for_list
     (fun j =>
        sij <- (si' <- index samples i ;; index si' j) ;;
        wij <- (wi <- index weights i ;; index wi j) ;;
        Ok (point.mk sij wij))
     (range (length si)))
  = (if length (nth i samples []) <=? length (nth i weights [])
     then Ok (zip_points (nth i samples []) (nth i weights []))
     else Raise IndexError).
Proof.
  intros Hi.
  rewrite (index_nth samples i [] Hi). cbn [bind].
  generalize (nth i samples []). intros s.
  destruct (nth_error weights i) as [w|] eqn:Hw.
  - rewrite (nth_error_nth _ _ [] Hw).
    rewrite (index_Some _ _ _ Hw). cbn [bind].
    exact (zip_loop s [] [] w 0 eq_refl eq_refl).
  - assert (Hnone : nth i weights [] = []).
    { apply nth_overflow. apply nth_error_None. exact Hw. }
    rewrite Hnone. unfold index at 2. rewrite Hw. cbn [bind].
    destruct s as [|x s]; reflexivity.
Qed.

Lemma compose_rows (samples weights : list (list float)) :
  compose samples weights
  = for_list
      (fun i =>
         if length (nth i samples []) <=? length (nth i weights [])
         then Ok (zip_points (nth i samples []) (nth i weights []))
         else Raise IndexError)
      (range (length samples)).
Proof.
  unfold compose. apply for_list_ext.
  intros i Hi. apply in_seq in Hi. apply compose_row. lia.
Qed.

Lemma compose_ok_iff (samples weights : list (list float)) :
  (exists c, compose samples weights = Ok c) <->
  (forall i, length (nth i samples []) <= length (nth i weights [])).
Proof.
  rewrite compose_rows. unfold range. split.
  - intros [c Hc] i.
    destruct (Nat.lt_ge_cases i (length samples)) as [Hi|Hi].
    + destruct (for_list_seq_ok _ _ _ _ Hc) as [_ Hnth].
      destruct (Hnth i Hi) as [d [_ Hd]]. cbn [Nat.add] in Hd.
      destruct (length (nth i samples []) <=? length (nth i weights []))
        eqn:Hle; [|discriminate Hd].
      apply Nat.leb_le. exact Hle.
    + rewrite (nth_overflow samples [] Hi). simpl. lia.
  - intros Hall. apply for_list_seq_all_ok.
    intros i _. cbn [Nat.add].
    pose proof (Hall i) as Hle. apply Nat.leb_le in Hle. rewrite Hle.
    eexists. reflexivity.
Qed.

(** X14: [compose] succeeds exactly when every row of samples finds at
    least as many weights in the row of weights at the same index, a
    missing row of weights counting as empty; surplus weights and surplus
    rows of weights are accepted.  It raises [IndexError] exactly when some
    row of samples is longer than the row of weights at its index. *)
Theorem compose_succeeds_iff (samples weights : list (list float)) :
  ((exists c, compose samples weights = Ok c) <->
   (forall i, length (nth i samples []) <= length (nth i weights []))) /\
  (compose samples weights = Raise IndexError <->
   (exists i, length (nth i weights []) < length (nth i samples []))).
Proof.
  split; [apply compose_ok_iff|]. split.
  - intros Hraise.
    destruct (Forall_Exists_dec
                (fun i => length (nth i samples []) <= length (nth i weights []))
                (fun i => le_dec _ _) (range (length samples)))
      as [Hall|Hex].
    + exfalso.
      assert (Hok : exists c, compose samples weights = Ok c).
      { apply compose_ok_iff. intros i.
        destruct (Nat.lt_ge_cases i (length samples)) as [Hi|Hi].
        - rewrite Forall_forall in Hall. apply Hall, in_seq. lia.
        - rewrite (nth_overflow samples [] Hi). simpl. lia. }
      destruct Hok as [c Hc]. rewrite Hc in Hraise. discriminate Hraise.
    + apply Exists_exists in Hex. destruct Hex as [i [_ Hi]].
      exists i. lia.
  - intros [i Hi].
    destruct (compose samples weights) as [c|[]] eqn:Hc; [|reflexivity].
    exfalso.
    assert (Hok : exists c', compose samples weights = Ok c')
      by (exists c; exact Hc).
    pose proof (proj1 (compose_ok_iff samples weights) Hok i). lia.
Qed.

Lemma zip_points_coords_le (xs ws : list float) :
  length xs <= length ws -> dirac_measure.coords (zip_points xs ws) = xs.
Proof.
  unfold dirac_measure.coords, dirac_measure.__positions, zip_points.
  revert ws. induction xs as [|x xs IH]; intros [|w ws]; simpl;
    try reflexivity; try lia.
  intros H. f_equal. apply IH. lia.
Qed.

Lemma zip_points_weights_firstn (xs ws : list float) :
  dirac_measure.weights (zip_points xs ws) = firstn (length xs) ws.
Proof.
  unfold dirac_measure.weights, dirac_measure.__weights, zip_points.
  revert ws. induction xs as [|x xs IH]; intros [|w ws]; simpl;
    try reflexivity.
  f_equal. apply IH.
Qed.

(** X15: whenever [compose] succeeds, the measure has one dimension per
    row of samples, its positions are exactly the samples, and the weights
    of dimension [i] are the leading weights of row [i], as many as the
    dimension has samples: weights past that count are dropped. *)
Theorem compose_keeps_samples (samples weights : list (list float))
  (c : product_measure.t) :
  compose samples weights = Ok c ->
  length c = length samples /\
  map dirac_measure.coords c = samples /\
  (forall i,
     dirac_measure.weights (nth i c [])
     = firstn (length (nth i samples [])) (nth i weights [])).
Proof.
  rewrite compose_rows. unfold range. intros Hc.
  destruct (for_list_seq_ok _ _ _ _ Hc) as [Hlen Hnth].
  assert (Hrow : forall i, i < length samples ->
                   nth i c [] = zip_points (nth i samples []) (nth i weights [])
                   /\ length (nth i samples []) <= length (nth i weights [])).
  { intros i Hi. destruct (Hnth i Hi) as [d [Hd Hrow]].
    cbn [Nat.add] in Hrow.
    assert (Hd' : nth i c [] = d) by (apply nth_error_nth; exact Hd).
    rewrite Hd'. clear Hd'.
    destruct (length (nth i samples []) <=? length (nth i weights []))
      eqn:Hle; [|discriminate Hrow].
    injection Hrow as <-. split; [reflexivity|].
    apply Nat.leb_le. exact Hle. }
  split; [exact Hlen|]. split.
  - apply (nth_ext _ _ [] []); [rewrite length_map; exact Hlen|].
    intros i Hi. rewrite length_map, Hlen in Hi.
    change (@nil float) with (dirac_measure.coords []) at 1.
    rewrite map_nth. destruct (Hrow i Hi) as [-> Hle].
    apply zip_points_coords_le. exact Hle.
  - intros i. destruct (Nat.lt_ge_cases i (length samples)) as [Hi|Hi].
    + destruct (Hrow i Hi) as [-> _]. apply zip_points_weights_firstn.
    + rewrite (nth_overflow samples [] Hi).
      rewrite (nth_overflow c []) by lia. reflexivity.
Qed.

(** X15 with a surplus weight in the first row and a surplus row. *)
Lemma compose_keeps_samples_witness :
  map dirac_measure.coords [dimA; dimB] = [[0; 1]; [2]]%float.
Proof.
  destruct (compose_keeps_samples
              [[0; 1]; [2]]%float
              [[0.5; 0.5; 9]; [1]; [7]]%float
              [dimA; dimB] eq_refl) as [_ [H _]].
  exact H.
Defined.

(** X16: [compose] applied to the per-dimension positions and weights of a
    product measure rebuilds that measure, point for point. *)
Theorem compose_of_views (c : product_measure.t) :
  compose (map dirac_measure.coords c) (map dirac_measure.weights c) = Ok c.
Proof.
  rewrite compose_ok.
  - rewrite zip_measures_self. reflexivity.
  - induction c as [|d c IH]; simpl; constructor; [|exact IH].
    rewrite coords_length_dirac, weights_length_dirac. reflexivity.
Qed.

(** ** [flatten] and the transforms around it *)

(** X17: flattening the dimensions of [c1] followed by those of [c2] gives
    the flat sequence of [c1] followed by the flat sequence of [c2]. *)
Theorem flatten_of_concatenation (c1 c2 : product_measure.t) :
  flatten (c1 ++ c2)
  = (p1 <- flatten c1 ;; p2 <- flatten c2 ;; Ok (p1 ++ p2)).
Proof.
  rewrite !flatten_ok, flat_map_app. reflexivity.
Qed.

(** X18: a flat sequence together with the per-dimension point counts
    determines the measure: two product measures with the same counts and
    the same [flatten] are equal. *)
Theorem flatten_injective (c1 c2 : product_measure.t) :
  map dirac_measure.npts c1 = map dirac_measure.npts c2 ->
  flatten c1 = flatten c2 ->
  c1 = c2.
Proof.
  intros Hn Hf.
  pose proof (unflatten_flatten c1) as H1.
  pose proof (unflatten_flatten c2) as H2.
  rewrite Hf, Hn, H2 in H1. injection H1 as H1. symmetry. exact H1.
Qed.

(** X18 on the two-dimensional example. *)
Lemma flatten_injective_witness : [dimA; dimB] = [dimA; dimB].
Proof.
  apply flatten_injective; reflexivity.
Defined.

Lemma flatten_zip_measures (positions weights : list (list float)) :
  Forall2 (fun p w => length p = length w) positions weights ->
  flatten (zip_measures positions weights)
  = Ok (concat (map (fun pw => snd pw ++ fst pw) (combine positions weights))).
Proof.
  intros Hshape.
  rewrite flatten_ok, flat_map_concat_map. f_equal. f_equal.
  unfold zip_measures. rewrite map_map.
  apply map_ext_in. intros [p w] Hin. cbn [fst snd].
  pose proof (Forall2_combine _ _ _ Hshape _ Hin) as Hlen.
  cbn [fst snd] in Hlen.
  rewrite (zip_points_coords _ _ Hlen), (zip_points_weights _ _ Hlen).
  reflexivity.
Qed.

(** X19: for well-shaped positions and weights, flattening the composed
    measure lays out, dimension after dimension, the row of weights
    followed by the row of positions. *)
Theorem flatten_of_compose (positions weights : list (list float)) :
  Forall2 (fun p w => length p = length w) positions weights ->
  (c <- compose positions weights ;; flatten c)
  = Ok (concat (map (fun pw => snd pw ++ fst pw) (combine positions weights))).
Proof.
  intros Hshape. rewrite (compose_ok _ _ Hshape). cbn [bind].
  apply flatten_zip_measures. exact Hshape.
Qed.

(** X19 on the two-dimensional example. *)
Lemma flatten_of_compose_witness :
  (c <- compose [[0; 1]; [2]]%float [[0.5; 0.5]; [1]]%float ;; flatten c)
  = Ok [0.5; 0.5; 0; 1; 1; 2]%float.
Proof.
  apply (flatten_of_compose [[0; 1]; [2]]%float [[0.5; 0.5]; [1]]%float).
  repeat constructor.
Defined.

Lemma views_shape (c : product_measure.t) :
  Forall2 (fun p w => length p = length w)
          (map dirac_measure.coords c) (map dirac_measure.weights c).
Proof.
  induction c as [|d c IH]; simpl; constructor; [|exact IH].
  rewrite coords_length_dirac, weights_length_dirac. reflexivity.
Qed.

(** X20: [decompose] never raises: it returns the per-dimension positions
    and the per-dimension weights of the measure, and [compose] applied to
    that pair rebuilds the measure. *)
Theorem decompose_views (c : product_measure.t) :
  decompose c
  = Ok (map dirac_measure.coords c, map dirac_measure.weights c) /\
  (xw <- decompose c ;; compose (fst xw) (snd xw)) = Ok c.
Proof.
  assert (Hd : decompose c
               = Ok (map dirac_measure.coords c, map dirac_measure.weights c)).
  { unfold decompose. rewrite flatten_ok. cbn [bind].
    rewrite nested_split_flat. reflexivity. }
  split; [exact Hd|].
  rewrite Hd. cbn [bind fst snd].
  rewrite (compose_ok _ _ (views_shape c)), zip_measures_self. reflexivity.
Qed.

Lemma nested_split_shape (npts : list nat) :
  forall params : list float,
  length params = 2 * list_sum npts ->
  map (@length float) (fst (_nested_split params npts)) = npts /\
  map (@length float) (snd (_nested_split params npts)) = npts /\
  concat (map (fun pw => snd pw ++ fst pw)
              (combine (snd (_nested_split params npts))
                       (fst (_nested_split params npts))))
  = params.
Proof.
  induction npts as [|n npts IH]; intros params Hlen.
  - destruct params; [repeat split|discriminate Hlen].
  - cbn [_nested_split].
    change (list_sum (n :: npts)) with (n + list_sum npts) in Hlen.
    specialize (IH (skipn n (skipn n params))).
    destruct (_nested_split (skipn n (skipn n params)) npts) as [ws xs].
    cbn [fst snd] in *.
    destruct IH as [Hw [Hx Hcat]]; [rewrite !length_skipn; lia|].
    cbn [map combine concat fst snd]. rewrite Hw, Hx, Hcat.
    rewrite <- app_assoc, !firstn_skipn.
    rewrite length_firstn, length_firstn, length_skipn.
    repeat split; f_equal; lia.
Qed.

Lemma same_lengths_shape (x w : list (list float)) :
  map (@length float) x = map (@length float) w ->
  Forall2 (fun p q => length p = length q) x w.
Proof.
  revert w. induction x as [|x0 x IH]; intros [|w0 w] H;
    try discriminate H; constructor.
  - simpl in H. injection H as H0 _. exact H0.
  - apply IH. simpl in H. injection H as _ H. exact H.
Qed.

(** X21: a flat sequence of twice the sum of the counts is accepted by
    [unflatten]: the measure built has exactly those per-dimension point
    counts, and flattening it gives the sequence back. *)
Theorem flatten_unflatten_roundtrip (params : list float)
  (npts : list nat) :
  length params = 2 * list_sum npts ->
  exists c : product_measure.t,
    unflatten params npts = Ok c /\
    map dirac_measure.npts c = npts /\
    flatten c = Ok params.
Proof.
  intros Hlen. unfold unflatten.
  destruct (nested_split_shape npts params Hlen) as [Hw [Hx Hcat]].
  destruct (_nested_split params npts) as [w x]. cbn [fst snd] in *.
  assert (Hshape : Forall2 (fun p q => length p = length q) x w).
  { apply same_lengths_shape. congruence. }
  exists (zip_measures x w). split; [apply compose_ok; exact Hshape|].
  split.
  - transitivity (map (@length float) x); [|exact Hx].
    clear Hw Hx Hcat Hlen.
    induction Hshape as [|p q x w Hpq _ IH]; [reflexivity|].
    unfold zip_measures in *. cbn [combine map fst snd].
    rewrite IH. f_equal.
    unfold dirac_measure.npts, dirac_measure.__n.
    apply zip_points_length. exact Hpq.
  - rewrite (flatten_zip_measures _ _ Hshape), Hcat. reflexivity.
Qed.

(** X21 on the flat sequence of the two-dimensional example. *)
Lemma flatten_unflatten_roundtrip_witness :
  exists c : product_measure.t,
    unflatten [0.5; 0.5; 0; 1; 1; 2]%float [2; 1] = Ok c /\
    map dirac_measure.npts c = [2; 1] /\
    flatten c = Ok [0.5; 0.5; 0; 1; 1; 2]%float.
Proof.
  apply flatten_unflatten_roundtrip. reflexivity.
Defined.
